(** * ImportWavPack: a shallow embedding of src/src/import/ImportWavPack.cpp

    The WavPack C library is external: it is the parameter [WavpackLib]
    below, and the answers of the progress dialog and [wxString::ToLong]
    are the parameter [Host].  The conversion [UTF8CTOWX] of tag text into
    a [wxString] is written out after wxWidgets' strict UTF-8 converter.  The host
    classes [Tags] and [WaveTrack] of the application are not part of the
    source file; they are modelled from the spec (a key/value tag store
    and one sample sequence per channel). *)

From Stdlib Require Import ZArith Lia Ascii String.
From stdpp Require Import base gmap strings list fin_maps.

Open Scope Z_scope.

(* ------------------------------------------------------------------ *)
(** ** Enumerations and constants of the host and of wavpack.h *)

Inductive sampleFormat := int16Sample | int24Sample | floatSample.

#[global] Instance sampleFormat_eq_dec : EqDecision sampleFormat.
Proof. solve_decision. Defined.

Inductive ProgressResult := Cancelled | Success | Failed | Stopped.

#[global] Instance ProgressResult_eq_dec : EqDecision ProgressResult.
Proof. solve_decision. Defined.

(** [static const auto exts = { wxT("wv") };] *)
Definition exts : list string := ["wv"%string].

(** [#define SAMPLES_TO_READ 100000] *)
Definition SAMPLES_TO_READ : Z := 100000.

(** Flags of [WavpackOpenFileInput] and mode bits of [WavpackGetMode]
    (wavpack.h). *)
Definition OPEN_WVC : Z := 0x1.
Definition OPEN_TAGS : Z := 0x2.
Definition OPEN_FILE_UTF8 : Z := 0x80.
Definition MODE_VALID_TAG : Z := 0x10.
Definition MODE_APETAG : Z := 0x100.

(** Wrap-around of a [uint32_t]. *)
Definition u32 (x : Z) : Z := x mod 2 ^ 32.

(* ------------------------------------------------------------------ *)
(** ** External collaborators *)

(** The WavPack decoding library over its opaque context [Ctx].
    [WavpackUnpackSamples ctx count] returns the context after the call,
    the contents of the interleaved [int32_t] buffer it filled, and the
    number of frames it unpacked.  [WavpackGetTagItemIndexed ctx i] is the
    key of the i-th tag item; [WavpackGetTagItem ctx key] is the raw value
    bytes for that key (APEv2 values may hold NUL separators). *)
Record WavpackLib (Ctx : Type) := {
  WavpackOpenFileInput : string -> Z -> option Ctx;
  WavpackGetNumChannels : Ctx -> Z;
  WavpackGetSampleRate : Ctx -> Z;
  WavpackGetBitsPerSample : Ctx -> Z;
  WavpackGetBytesPerSample : Ctx -> Z;
  WavpackGetNumSamples64 : Ctx -> Z;
  WavpackUnpackSamples : Ctx -> Z -> Ctx * list Z * Z;
  WavpackGetMode : Ctx -> Z;
  WavpackGetNumTagItems : Ctx -> Z;
  WavpackGetTagItemIndexed : Ctx -> Z -> string;
  WavpackGetTagItem : Ctx -> string -> string
}.

Arguments WavpackOpenFileInput {Ctx} _ _ _.
Arguments WavpackGetNumChannels {Ctx} _ _.
Arguments WavpackGetSampleRate {Ctx} _ _.
Arguments WavpackGetBitsPerSample {Ctx} _ _.
Arguments WavpackGetBytesPerSample {Ctx} _ _.
Arguments WavpackGetNumSamples64 {Ctx} _ _.
Arguments WavpackUnpackSamples {Ctx} _ _ _.
Arguments WavpackGetMode {Ctx} _ _.
Arguments WavpackGetNumTagItems {Ctx} _ _.
Arguments WavpackGetTagItemIndexed {Ctx} _ _ _.
Arguments WavpackGetTagItem {Ctx} _ _ _.

(** The rest of the environment: [wxString::ToLong] as a success test, and
    the answers of the progress dialog, [UpdateAt k] being the result of
    the k-th call of [mProgress->Update] (it depends on the user). *)
Record Host := {
  ToLong : list Z -> bool;
  UpdateAt : nat -> ProgressResult
}.

(** Modelled from the spec: the host's [WaveTrack] (WaveTrack.h is not part
    of the source), one sequence of PCM samples per channel, with the
    sample format and rate it was created with.  A sample is kept as the
    32-bit word [Append] read it from. *)
Record WaveTrack := {
  wt_format : sampleFormat;
  wt_rate : Z;
  wt_samples : list Z;
  wt_flushed : bool
}.

(** Modelled from the spec: [NewWaveTrack(factory, format, rate)], an empty
    track. *)
Definition NewWaveTrack (fmt : sampleFormat) (rate : Z) : WaveTrack :=
  {| wt_format := fmt; wt_rate := rate; wt_samples := []; wt_flushed := false |}.

(** Modelled from the spec: [track->Append(ptr, format, 1)] appends one
    sample at the end of the channel's sequence. *)
Definition Append (t : WaveTrack) (s : Z) : WaveTrack :=
  {| wt_format := wt_format t; wt_rate := wt_rate t;
     wt_samples := wt_samples t ++ [s]; wt_flushed := wt_flushed t |}.

(** Modelled from the spec: [track->Flush()] commits the appended samples. *)
Definition Flush (t : WaveTrack) : WaveTrack :=
  {| wt_format := wt_format t; wt_rate := wt_rate t;
     wt_samples := wt_samples t; wt_flushed := true |}.

(** ** Strings *)

(** A [wxString] is a sequence of wide characters, one Unicode code point
    each ([wchar_t] is 32 bits wide on the Unix platforms). *)
Abbreviation wxString := (list Z).

(** The bytes of a C string buffer. *)
Definition c_bytes (s : string) : list Z :=
  map (fun a => Z.of_nat (Ascii.nat_of_ascii a)) (list_ascii_of_string s).

(** [wxT("...")]: a wide literal of ASCII characters. *)
Definition wxT (s : string) : wxString := c_bytes s.

(** [TAG_YEAR] of Tags.h, [wxT("YEAR")]. *)
Definition TAG_YEAR : wxString := wxT "YEAR".

(** Modelled from the spec: the host's [Tags] store, a key/value map from
    tag names to values (Tags.h is not part of the source). *)
Abbreviation Tags := (gmap wxString wxString).

Definition Tags_Clear (tags : Tags) : Tags := ∅.
Definition Tags_HasTag (tags : Tags) (name : wxString) : bool :=
  bool_decide (is_Some (tags !! name)).
Definition Tags_SetTag (tags : Tags) (name value : wxString) : Tags :=
  <[name := value]> tags.

(** [wxString::Upper] upper-cases each character.  Its only use is the
    comparison with [wxT("DATE")]; no character outside a-z and A-Z has
    one of D, A, T, E as its upper case, so the letters a-z are the ones
    that matter here. *)
Definition towupper (c : Z) : Z :=
  if (97 <=? c) && (c <=? 122) then c - 32 else c.

Definition Upper (s : wxString) : wxString := map towupper s.

(** The C string at a buffer: the bytes before the first NUL. *)
Fixpoint c_str (s : string) : string :=
  match s with
  | EmptyString => EmptyString
  | String a s' => if Ascii.eqb a Ascii.zero then EmptyString else String a (c_str s')
  end.

(** wxWidgets' strict UTF-8 converter [wxMBConvStrictUTF8], which
    [wxConvUTF8] is.  [tableUtf8Lengths] gives the length of the sequence
    a lead byte starts, 0 for a byte that starts none (a continuation
    byte, 0xC0, 0xC1 and 0xF5 to 0xFF). *)
Definition tableUtf8Lengths (c : Z) : nat :=
  if c <? 0x80 then 1 else if c <? 0xC2 then 0 else if c <? 0xE0 then 2
  else if c <? 0xF0 then 3 else if c <? 0xF5 then 4 else 0.

Definition leadValueMask (len : nat) : Z := nth len [0x7F; 0x1F; 0x0F; 0x07] 0.
Definition leadMarkerMask (len : nat) : Z := nth len [0x80; 0xE0; 0xF0; 0xF8] 0.
Definition leadMarkerVal (len : nat) : Z := nth len [0x00; 0xC0; 0xE0; 0xF0] 0.

(** [wxMBConvStrictUTF8::ToWChar] on the bytes of a C string, byte by
    byte: [len] continuation bytes are still expected for the code point
    [code].  A byte that starts no sequence, a lead byte without its
    marker bits, a continuation byte not of the form 10xxxxxx or a
    sequence cut short fails the whole conversion ([wxCONV_FAILED]). *)
Fixpoint ToWChar (len : nat) (code : Z) (src : list Z) : option wxString :=
  match len, src with
  | O, [] => Some []
  | S _, [] => None
  | O, c :: src' =>
      match tableUtf8Lengths c with
      | O => None
      | S len' =>
          if negb (Z.land c (leadMarkerMask len') =? leadMarkerVal len') then None
          else
            let code := Z.land c (leadValueMask len') in
            match len' with
            | O => option_map (cons code) (ToWChar O 0 src')
            | _ => ToWChar len' code src'
            end
      end
  | S len', c :: src' =>
      if negb (Z.land c 0xC0 =? 0x80) then None
      else
        let code := Z.lor (Z.shiftl code 6) (Z.land c 0x3F) in
        match len' with
        | O => option_map (cons code) (ToWChar O 0 src')
        | _ => ToWChar len' code src'
        end
  end.

(** [UTF8CTOWX(p)], that is [wxString(p, wxConvUTF8)]: the C string at [p]
    converted from UTF-8; a failed conversion gives the empty string. *)
Definition UTF8CTOWX (p : string) : wxString :=
  match ToWChar O 0 (c_bytes (c_str p)) with
  | Some w => w
  | None => []
  end.

(** [for (j = 0; j < valueLen; j++) if (!itemValue[j]) itemValue[j] = '\\';] *)
Fixpoint replace_nuls (s : string) : string :=
  match s with
  | EmptyString => EmptyString
  | String a s' =>
      String (if Ascii.eqb a Ascii.zero then "\"%char else a) (replace_nuls s')
  end.

(* ------------------------------------------------------------------ *)
(** ** The plugin and the file handle *)

(** The extensions the plugin registers, [FileExtensions(exts.begin(),
    exts.end())]. *)
Definition WavPackImportPlugin_extensions : list string := exts.

(** The data members of [WavPackImportFileHandle] (the member [mChannels]
    is local to [Import] and is threaded there). *)
Record WavPackImportFileHandle (Ctx : Type) := {
  mFilename : string;
  mWavPackContext : Ctx;
  mNumChannels : Z;
  mSampleRate : Z;
  mBitsPerSample : Z;
  mBytesPerSample : Z;
  mNumSamples : Z;
  mFormat : sampleFormat
}.

Arguments mFilename {Ctx} _.
Arguments mWavPackContext {Ctx} _.
Arguments mNumChannels {Ctx} _.
Arguments mSampleRate {Ctx} _.
Arguments mBitsPerSample {Ctx} _.
Arguments mBytesPerSample {Ctx} _.
Arguments mNumSamples {Ctx} _.
Arguments mFormat {Ctx} _.

(** [WavPackImportPlugin::GetPluginStringID] *)
Definition GetPluginStringID : string := "libwavpack".

(** [DESC], the format description returned by
    [WavPackImportPlugin::GetPluginFormatDescription] and
    [WavPackImportFileHandle::GetFileDescription]. *)
Definition DESC : string := "WavPack files".

(** [WavPackImportFileHandle::GetFileUncompressedBytes] *)
Definition GetFileUncompressedBytes {Ctx} (h : WavPackImportFileHandle Ctx) : Z := 0.

(** [WavPackImportFileHandle::GetStreamInfo]: the empty list of stream
    descriptions. *)
Definition GetStreamInfo {Ctx} (h : WavPackImportFileHandle Ctx) : list string := [].

(** [WavPackImportFileHandle::SetStreamUsage]: ignores its arguments. *)
Definition SetStreamUsage {Ctx} (h : WavPackImportFileHandle Ctx) (StreamID : Z) (Use : bool)
  : WavPackImportFileHandle Ctx := h.

(** [WavPackImportFileHandle::GetStreamCount] *)
Definition GetStreamCount {Ctx} (h : WavPackImportFileHandle Ctx) : Z := 1.

Section ImportModel.

Context {Ctx : Type} (lib : WavpackLib Ctx) (host : Host).

(** The bit-depth test of the constructor. *)
Definition format_of_bits (bitsPerSample : Z) : sampleFormat :=
  if bitsPerSample <=? 16 then int16Sample
  else if bitsPerSample <=? 24 then int24Sample
  else floatSample.

(** [WavPackImportFileHandle::WavPackImportFileHandle(filename, ctx)] *)
Definition new_WavPackImportFileHandle (filename : string) (ctx : Ctx)
  : WavPackImportFileHandle Ctx :=
  let bits := WavpackGetBitsPerSample lib ctx in
  {| mFilename := filename;
     mWavPackContext := ctx;
     mNumChannels := WavpackGetNumChannels lib ctx;
     mSampleRate := WavpackGetSampleRate lib ctx;
     mBitsPerSample := bits;
     mBytesPerSample := WavpackGetBytesPerSample lib ctx;
     mNumSamples := WavpackGetNumSamples64 lib ctx;
     mFormat := format_of_bits bits |}.

(** [WavPackImportPlugin::Open]: [None] is [nullptr]. *)
Definition WavPackImportPlugin_Open (filename : string)
  : option (WavPackImportFileHandle Ctx) :=
  let flags := Z.lor (Z.lor OPEN_WVC OPEN_FILE_UTF8) OPEN_TAGS in
  match WavpackOpenFileInput lib filename flags with
  | None => None
  | Some wavpackContext => Some (new_WavPackImportFileHandle filename wavpackContext)
  end.

(** One pass of the inner loop
    [for (chn = 0; chn < mNumChannels; ++iter, ++c, ++chn)
       iter->get()->Append(&wavpackBuffer[c], mFormat, 1);]
    over the [mNumChannels] tracks of [mChannels]; returns the tracks and
    the new [c]. *)
Fixpoint append_frame (buf : list Z) (c : Z) (chans : list WaveTrack)
  : list WaveTrack * Z :=
  match chans with
  | [] => ([], c)
  | t :: ts =>
      let '(ts', c') := append_frame buf (c + 1) ts in
      (Append t (nth (Z.to_nat c) buf 0) :: ts', c')
  end.

(** The outer loop [for (int64_t c = 0; c < limit;) { ... }]; each pass
    advances [c] by the number of tracks, so [limit] passes are enough. *)
Fixpoint append_frames (fuel : nat) (buf : list Z) (c limit : Z)
    (chans : list WaveTrack) : list WaveTrack :=
  match fuel with
  | O => chans
  | S fuel' =>
      if c <? limit then
        let '(chans', c') := append_frame buf c chans in
        append_frames fuel' buf c' limit chans'
      else chans
  end.

(** The deinterleaving of one chunk: [samplesRead * mNumChannels] is a
    [uint32_t] product. *)
Definition append_chunk (numChannels : Z) (buf : list Z) (samplesRead : Z)
    (chans : list WaveTrack) : list WaveTrack :=
  let limit := u32 (samplesRead * numChannels) in
  append_frames (Z.to_nat limit) buf 0 limit chans.

(** What one iteration of the decode loop did (a ghost record of the run):
    the number of frames requested, the buffer filled, the frames read and
    the answer of the progress dialog. *)
Record Chunk := {
  ch_request : Z;
  ch_buffer : list Z;
  ch_read : Z;
  ch_update : ProgressResult
}.

(** The [do { ... } while (updateResult == Success && samplesRead != 0)]
    loop.  [k] counts the calls of [mProgress->Update].  It returns the
    context, the tracks, [totalSamplesRead], [updateResult] and the chunks
    read; [None] when the fuel runs out. *)
Fixpoint decode_loop (fuel : nat) (k : nat) (numChannels : Z) (ctx : Ctx)
    (chans : list WaveTrack) (totalSamplesRead : Z)
  : option (Ctx * list WaveTrack * Z * ProgressResult * list Chunk) :=
  match fuel with
  | O => None
  | S fuel' =>
      let '(ctx1, buf, samplesRead) :=
        WavpackUnpackSamples lib ctx SAMPLES_TO_READ in
      let chans1 := append_chunk numChannels buf samplesRead chans in
      let total1 := u32 (totalSamplesRead + samplesRead) in
      let updateResult := UpdateAt host k in
      let ch := {| ch_request := SAMPLES_TO_READ; ch_buffer := buf;
                   ch_read := samplesRead; ch_update := updateResult |} in
      if bool_decide (updateResult = Success) && negb (samplesRead =? 0) then
        match decode_loop fuel' (S k) numChannels ctx1 chans1 total1 with
        | None => None
        | Some (c, ts, tot, r, trace) => Some (c, ts, tot, r, ch :: trace)
        end
      else Some (ctx1, chans1, total1, updateResult, [ch])
  end.

(** One iteration of the tag loop, for the tag item at index [i]: the
    value read for the key [item] (its NULs turned into backslashes for an
    APEv2 tag), converted with [UTF8CTOWX]. *)
Definition tag_value (ctx : Ctx) (apeTag : bool) (item : string) : wxString :=
  let itemValue := WavpackGetTagItem lib ctx item in
  UTF8CTOWX (if apeTag then replace_nuls itemValue else itemValue).

Definition copy_tag (ctx : Ctx) (apeTag : bool) (tags : Tags) (i : nat) : Tags :=
  let item := WavpackGetTagItemIndexed lib ctx (Z.of_nat i) in
  let name := UTF8CTOWX item in
  let value := tag_value ctx apeTag item in
  let name :=
    if bool_decide (Upper name = wxT "DATE") && negb (Tags_HasTag tags TAG_YEAR)
       && (Z.of_nat (length value) =? 4) && ToLong host value
    then TAG_YEAR else name in
  Tags_SetTag tags name value.

(** The tag block of [Import], after the tracks are handed over. *)
Definition copy_tags (ctx : Ctx) (tags : Tags) : Tags :=
  let wavpackMode := WavpackGetMode lib ctx in
  if negb (Z.land wavpackMode MODE_VALID_TAG =? 0) then
    let apeTag := negb (Z.land wavpackMode MODE_APETAG =? 0) in
    let numItems := WavpackGetNumTagItems lib ctx in
    if 0 <? numItems then
      fold_left (copy_tag ctx apeTag) (seq 0 (Z.to_nat numItems)) (Tags_Clear tags)
    else tags
  else tags.

(** The outcome of [Import]: the result, [outTracks], the tag store and the
    library context, with ghost fields for the run: the result the loop
    ended with, the tracks as decoded (before [Flush]), [totalSamplesRead]
    and the chunks read. *)
Record ImportOut := {
  io_result : ProgressResult;
  io_outTracks : list (list WaveTrack);
  io_tags : Tags;
  io_ctx : Ctx;
  io_loop_result : ProgressResult;
  io_tracks : list WaveTrack;
  io_total : Z;
  io_chunks : list Chunk
}.

(** [if (updateResult != Stopped && totalSamplesRead < mNumSamples)
       updateResult = Failed;]: the [uint32_t] total is compared with the
    [int64_t] frame count. *)
Definition completeness_check (h : WavPackImportFileHandle Ctx)
    (updateResult : ProgressResult) (totalSamplesRead : Z) : ProgressResult :=
  if bool_decide (updateResult <> Stopped) && (totalSamplesRead <? mNumSamples h)
  then Failed else updateResult.

(** [WavPackImportFileHandle::Import(trackFactory, outTracks, tags)];
    [None] when the decode loop runs out of fuel. *)
Definition Import (fuel : nat) (h : WavPackImportFileHandle Ctx)
    (outTracks : list (list WaveTrack)) (tags : Tags) : option ImportOut :=
  let outTracks0 : list (list WaveTrack) := [] in
  let mChannels :=
    replicate (Z.to_nat (mNumChannels h)) (NewWaveTrack (mFormat h) (mSampleRate h)) in
  match decode_loop fuel 0 (mNumChannels h) (mWavPackContext h) mChannels 0 with
  | None => None
  | Some (ctx, chans, totalSamplesRead, loopResult, trace) =>
      let updateResult := completeness_check h loopResult totalSamplesRead in
      if bool_decide (updateResult = Failed) || bool_decide (updateResult = Cancelled)
      then
        Some {| io_result := updateResult; io_outTracks := outTracks0;
                io_tags := tags; io_ctx := ctx; io_loop_result := loopResult;
                io_tracks := chans; io_total := totalSamplesRead;
                io_chunks := trace |}
      else
        let flushed := map Flush chans in
        let outTracks1 := match flushed with [] => outTracks0 | _ => outTracks0 ++ [flushed] end in
        Some {| io_result := updateResult; io_outTracks := outTracks1;
                io_tags := copy_tags ctx tags; io_ctx := ctx;
                io_loop_result := loopResult; io_tracks := chans;
                io_total := totalSamplesRead; io_chunks := trace |}
  end.

End ImportModel.

(* ------------------------------------------------------------------ *)
(** ** A concrete library for tests: a stereo file of three frames with
    an APEv2 tag block of two items.  The context counts the calls of
    [WavpackUnpackSamples]. *)

Definition demo_nul_string : string :=
  String "A" (String Ascii.zero (String "B" EmptyString)).

Definition demo_keys (i : Z) : string := if i =? 0 then "Title" else "date".

Definition demo_values (key : string) : string :=
  if String.eqb key "Title" then demo_nul_string else "2020".

Definition demo_lib_with (keys : Z -> string) (values : string -> string)
  (mode numItems declared : Z) : WavpackLib nat := {|
  WavpackOpenFileInput := fun name _ => if String.eqb name "a.wv" then Some 0%nat else None;
  WavpackGetNumChannels := fun _ => 2;
  WavpackGetSampleRate := fun _ => 44100;
  WavpackGetBitsPerSample := fun _ => 16;
  WavpackGetBytesPerSample := fun _ => 2;
  WavpackGetNumSamples64 := fun _ => declared;
  WavpackUnpackSamples := fun ctx _ =>
    match ctx with
    | O => (1%nat, [10; 20; 11; 21; 12; 22], 3)
    | S _ => (S ctx, [], 0)
    end;
  WavpackGetMode := fun _ => mode;
  WavpackGetNumTagItems := fun _ => numItems;
  WavpackGetTagItemIndexed := fun _ i => keys i;
  WavpackGetTagItem := fun _ key => values key
|}.

Definition demo_lib (mode numItems declared : Z) : WavpackLib nat :=
  demo_lib_with demo_keys demo_values mode numItems declared.

(** A file with a plain (not APEv2) tag block of three items written in
    Latin-1 rather than UTF-8: "Title" = "Caf" followed by the byte 0xE9,
    and two keys made of the byte 0xFF followed by "1" and "2". *)
Definition latin1_cafe : string := String.append "Caf" (String (Ascii.ascii_of_nat 233) EmptyString).
Definition latin1_key (d : string) : string := String (Ascii.ascii_of_nat 255) d.

Definition latin1_keys (i : Z) : string :=
  if i =? 0 then "Title" else if i =? 1 then latin1_key "1" else latin1_key "2".

Definition latin1_values (key : string) : string :=
  if String.eqb key "Title" then latin1_cafe
  else if String.eqb key (latin1_key "1") then "1" else "2".

Definition latin1_lib : WavpackLib nat := demo_lib_with latin1_keys latin1_values 0x10 3 3.

Definition demo_host (answers : list ProgressResult) : Host := {|
  ToLong := fun s => bool_decide (s = wxT "2020");
  UpdateAt := fun k => nth k answers Success
|}.

Definition demo_handle (lib : WavpackLib nat) : WavPackImportFileHandle nat :=
  new_WavPackImportFileHandle lib "a.wv" 0%nat.

(** The file with a valid APEv2 tag block, declaring its three frames. *)
Definition demo_tagged : WavpackLib nat := demo_lib 0x110 2 3.

(** [Import] of "a.wv" with the given answers of the progress dialog. *)
Definition demo_import (lib : WavpackLib nat) (answers : list ProgressResult) (tags : Tags)
  : option (@ImportOut nat) :=
  Import lib (demo_host answers) 5 (demo_handle lib) [] tags.

(* ------------------------------------------------------------------ *)
(** ** The vocabulary of the claims *)

(** The samples a claim expects channel [chn] of [n] to receive from one
    chunk: for each frame [f] of the chunk, interleaved element [f * n + chn]. *)
Definition chunk_channel (n chn : nat) (ch : Chunk) : list Z :=
  map (fun f => nth (f * n + chn) (ch_buffer ch) 0) (seq 0 (Z.to_nat (ch_read ch))).

(** The same over all the chunks of a run, in order. *)
Definition channel_samples (n chn : nat) (trace : list Chunk) : list Z :=
  concat (map (chunk_channel n chn) trace).

(** A track with [xs] appended. *)
Definition AppendMany (t : WaveTrack) (xs : list Z) : WaveTrack :=
  {| wt_format := wt_format t; wt_rate := wt_rate t;
     wt_samples := wt_samples t ++ xs; wt_flushed := wt_flushed t |}.

(** The sum of the frames read over a run. *)
Definition sum_read (trace : list Chunk) : Z :=
  fold_right (fun ch acc => ch_read ch + acc) 0 trace.

(** The library context after [k] calls of [WavpackUnpackSamples] with
    the chunk size of [Import]. *)
Fixpoint lib_state {Ctx} (lib : WavpackLib Ctx) (ctx : Ctx) (k : nat) : Ctx :=
  match k with
  | O => ctx
  | S k' => lib_state lib (fst (fst (WavpackUnpackSamples lib ctx SAMPLES_TO_READ))) k'
  end.

(* ------------------------------------------------------------------ *)
(** ** Properties *)

Lemma AppendMany_nil t : AppendMany t [] = t.
Proof. destruct t; unfold AppendMany; simpl; rewrite app_nil_r; reflexivity. Qed.

Lemma AppendMany_app t xs ys : AppendMany (AppendMany t xs) ys = AppendMany t (xs ++ ys).
Proof. destruct t; unfold AppendMany; simpl; rewrite app_assoc; reflexivity. Qed.

Lemma AppendMany_Append t x xs : AppendMany (Append t x) xs = AppendMany t (x :: xs).
Proof. destruct t; unfold AppendMany, Append; simpl; rewrite <- app_assoc; reflexivity. Qed.

Lemma imap_imap {A B C} (g : nat -> A -> B) (f : nat -> B -> C) (l : list A) :
  imap f (imap g l) = imap (fun i x => f i (g i x)) l.
Proof. revert f g; induction l as [|x l IH]; intros f g; simpl; [done|]. by rewrite IH. Qed.

Lemma imap_id_ext {A} (f : nat -> A -> A) (l : list A) :
  (forall i x, f i x = x) -> imap f l = l.
Proof.
  revert f; induction l as [|x l IH]; intros f Hf; simpl; [done|].
  rewrite Hf, IH; [done|]. intros; apply Hf.
Qed.

Lemma append_frame_eq (buf : list Z) (c : Z) (chans : list WaveTrack) :
  append_frame buf c chans =
  (imap (fun chn t => Append t (nth (Z.to_nat (c + Z.of_nat chn)) buf 0)) chans,
   c + Z.of_nat (length chans)).
Proof.
  revert c; induction chans as [|t ts IH]; intros c; simpl.
  - f_equal; lia.
  - rewrite IH. f_equal.
    + f_equal; [do 3 f_equal; lia|].
      apply imap_ext; intros i x _; simpl. do 3 f_equal. lia.
    + lia.
Qed.

Lemma append_frames_eq (buf : list Z) (n : nat) :
  (0 < n)%nat ->
  forall k f fuel (chans : list WaveTrack),
  (k <= fuel)%nat -> length chans = n ->
  append_frames fuel buf (Z.of_nat (f * n)) (Z.of_nat ((f + k) * n)) chans =
  imap (fun chn t => AppendMany t (map (fun g => nth (g * n + chn) buf 0) (seq f k))) chans.
Proof.
  intros Hn k; induction k as [|k IH]; intros f fuel chans Hk Hlen.
  - rewrite imap_id_ext by (intros; apply AppendMany_nil).
    destruct fuel; simpl; [done|].
    rewrite Nat.add_0_r, Z.ltb_irrefl. done.
  - destruct fuel as [|fuel]; [lia|]. simpl.
    assert (Hlt : Z.of_nat (f * n) < Z.of_nat ((f + S k) * n)) by nia.
    apply Z.ltb_lt in Hlt; rewrite Hlt.
    rewrite append_frame_eq, Hlen.
    replace (Z.of_nat (f * n) + Z.of_nat n) with (Z.of_nat (S f * n)) by lia.
    replace ((f + S k) * n)%nat with ((S f + k) * n)%nat by lia.
    rewrite IH by (try rewrite length_imap; lia).
    rewrite imap_imap. apply imap_ext; intros i x _.
    rewrite AppendMany_Append. simpl. do 4 f_equal. lia.
Qed.

Lemma append_chunk_eq (buf : list Z) (n : nat) (sr : Z) (chans : list WaveTrack) :
  0 <= sr <= SAMPLES_TO_READ -> Z.of_nat n * SAMPLES_TO_READ < 2 ^ 32 ->
  length chans = n ->
  append_chunk (Z.of_nat n) buf sr chans =
  imap (fun chn t => AppendMany t (map (fun g => nth (g * n + chn) buf 0)
                                     (seq 0 (Z.to_nat sr)))) chans.
Proof.
  unfold append_chunk, u32, SAMPLES_TO_READ; intros Hsr Hn Hlen.
  rewrite Z.mod_small by nia.
  destruct n as [|n'].
  - destruct chans; [|discriminate]. rewrite Z.mul_0_r. done.
  - pose proof (append_frames_eq buf (S n') ltac:(lia) (Z.to_nat sr) 0
                  (Z.to_nat (sr * Z.of_nat (S n'))) chans) as E.
    simpl in E. rewrite Nat2Z.inj_mul, Z2Nat.id in E by lia.
    rewrite <- E by nia. done.
Qed.


Section Proofs.

Context {Ctx : Type} (lib : WavpackLib Ctx) (host : Host).

Implicit Types (h : WavPackImportFileHandle Ctx) (tags : Tags) (o : @ImportOut Ctx).

(** The shape of a finished [Import]: the loop's outcome, the completeness
    check, and the two exits. *)
Lemma Import_inv fuel h outTracks tags o :
  Import lib host fuel h outTracks tags = Some o ->
  decode_loop lib host fuel 0 (mNumChannels h) (mWavPackContext h)
    (replicate (Z.to_nat (mNumChannels h)) (NewWaveTrack (mFormat h) (mSampleRate h))) 0
  = Some (io_ctx o, io_tracks o, io_total o, io_loop_result o, io_chunks o) /\
  io_result o = completeness_check h (io_loop_result o) (io_total o) /\
  ((io_result o = Failed \/ io_result o = Cancelled) /\
     io_outTracks o = [] /\ io_tags o = tags
   \/ (io_result o <> Failed /\ io_result o <> Cancelled) /\
     io_outTracks o = match map Flush (io_tracks o) with [] => [] | fl => [fl] end /\
     io_tags o = copy_tags lib host (io_ctx o) tags).
Proof.
  unfold Import.
  destruct (decode_loop _ _ _ _ _ _ _ _) as [[[[[ctx chans] tot] lr] tr]|]; [|discriminate].
  set (r := completeness_check h lr tot).
  destruct (bool_decide (r = Failed)) eqn:HF, (bool_decide (r = Cancelled)) eqn:HC;
    simpl; intros [= <-]; simpl; repeat split; try reflexivity.
  - left. apply bool_decide_eq_true in HF. auto.
  - left. apply bool_decide_eq_true in HF. auto.
  - left. apply bool_decide_eq_true in HC. auto.
  - right. apply bool_decide_eq_false in HF, HC. repeat split; auto.
    destruct (map Flush chans); reflexivity.
Qed.

Ltac step_loop H :=
  simpl in H;
  match type of H with
  | context [WavpackUnpackSamples lib ?c SAMPLES_TO_READ] =>
      let ctx1 := fresh "ctx1" in let buf := fresh "buf" in let sr := fresh "sr" in
      destruct (WavpackUnpackSamples lib c SAMPLES_TO_READ) as [[ctx1 buf] sr] eqn:?
  end.

Lemma decode_loop_tracks fuel k (n : nat) ctx chans tot c ts t r tr :
  decode_loop lib host fuel k (Z.of_nat n) ctx chans tot = Some (c, ts, t, r, tr) ->
  length chans = n -> Z.of_nat n * SAMPLES_TO_READ < 2 ^ 32 ->
  Forall (fun ch => 0 <= ch_read ch <= SAMPLES_TO_READ) tr ->
  ts = imap (fun chn t => AppendMany t (channel_samples n chn tr)) chans.
Proof.
  revert k ctx chans tot tr.
  induction fuel as [|fuel IH]; intros k ctx chans tot tr H Hlen Hn Hrd; [discriminate|].
  step_loop H.
  destruct (bool_decide _ && _).
  - destruct (decode_loop lib host fuel _ _ _ _ _) as [[[[[c' ts'] t'] r'] tr']|] eqn:E;
      [|discriminate].
    injection H as <- <- <- <- <-.
    inversion Hrd as [|? ? Hch Hrest]; subst; simpl in Hch.
    apply IH in E; [| rewrite append_chunk_eq, length_imap by done; done | done | done].
    rewrite E, append_chunk_eq by done.
    rewrite imap_imap. apply imap_ext; intros i x _.
    rewrite AppendMany_app. reflexivity.
  - injection H as <- <- <- <- <-.
    inversion Hrd as [|? ? Hch Hrest]; subst; simpl in Hch.
    rewrite append_chunk_eq by done.
    apply imap_ext; intros i x _. unfold channel_samples; simpl.
    rewrite app_nil_r. reflexivity.
Qed.

Lemma decode_loop_trace fuel k n ctx chans tot c ts t r tr :
  decode_loop lib host fuel k n ctx chans tot = Some (c, ts, t, r, tr) ->
  Forall (fun ch => ch_request ch = SAMPLES_TO_READ) tr /\
  exists pre last, tr = pre ++ [last] /\
    Forall (fun ch => ch_update ch = Success /\ ch_read ch <> 0) pre /\
    (ch_read last = 0 \/ ch_update last <> Success) /\ r = ch_update last.
Proof.
  revert k ctx chans tot tr.
  induction fuel as [|fuel IH]; intros k ctx chans tot tr H; [discriminate|].
  step_loop H.
  destruct (bool_decide (UpdateAt host k = Success) && negb (sr =? 0)) eqn:B.
  - destruct (decode_loop lib host fuel _ _ _ _ _) as [[[[[c' ts'] t'] r'] tr']|] eqn:E;
      [|discriminate].
    injection H as <- <- <- <- <-.
    apply IH in E as [Hreq [pre [last [-> [Hpre [Hlast ->]]]]]].
    apply andb_true_iff in B as [B1 B2].
    apply bool_decide_eq_true in B1. apply negb_true_iff, Z.eqb_neq in B2.
    split; [constructor; [reflexivity|done]|].
    exists ({| ch_request := SAMPLES_TO_READ; ch_buffer := buf; ch_read := sr;
               ch_update := UpdateAt host k |} :: pre), last.
    repeat split; auto.
  - injection H as <- <- <- <- <-.
    split; [repeat constructor|].
    exists [], {| ch_request := SAMPLES_TO_READ; ch_buffer := buf; ch_read := sr;
                  ch_update := UpdateAt host k |}.
    repeat split; auto. simpl.
    apply andb_false_iff in B as [B|B].
    + right. intros E. apply bool_decide_eq_false in B. auto.
    + left. apply negb_false_iff, Z.eqb_eq in B. done.
Qed.

Lemma decode_loop_total fuel k n ctx chans tot c ts t r tr :
  decode_loop lib host fuel k n ctx chans tot = Some (c, ts, t, r, tr) ->
  t = u32 (tot + sum_read tr).
Proof.
  revert k ctx chans tot tr.
  induction fuel as [|fuel IH]; intros k ctx chans tot tr H; [discriminate|].
  step_loop H.
  destruct (bool_decide _ && _).
  - destruct (decode_loop lib host fuel _ _ _ _ _) as [[[[[c' ts'] t'] r'] tr']|] eqn:E;
      [|discriminate].
    injection H as <- <- <- <- <-.
    apply IH in E as ->. simpl. unfold u32.
    rewrite Zplus_mod_idemp_l. f_equal. lia.
  - injection H as <- <- <- <- <-. simpl. f_equal. lia.
Qed.

Lemma decode_loop_terminates k :
  forall j n ctx chans tot,
  snd (WavpackUnpackSamples lib (lib_state lib ctx k) SAMPLES_TO_READ) = 0 ->
  exists res, decode_loop lib host (S k) j n ctx chans tot = Some res.
Proof.
  induction k as [|k IH]; intros j n ctx chans tot H0.
  - simpl in H0 |- *.
    destruct (WavpackUnpackSamples lib ctx SAMPLES_TO_READ) as [[ctx1 buf] sr] eqn:U.
    simpl in H0; subst sr. rewrite andb_false_r. eauto.
  - simpl in H0. remember (S k) as fk eqn:Hfk. simpl.
    destruct (WavpackUnpackSamples lib ctx SAMPLES_TO_READ) as [[ctx1 buf] sr] eqn:U.
    simpl in H0. destruct (bool_decide _ && _); [|eauto].
    subst fk.
    destruct (IH (S j) n ctx1 (append_chunk n buf sr chans) (u32 (tot + sr)) H0)
      as [[[[[c' ts'] t'] r'] tr'] E].
    rewrite E. eauto.
Qed.

Section TagLoop.

Variables (ctx : Ctx) (ape : bool).

Let item (i : nat) : string := WavpackGetTagItemIndexed lib ctx (Z.of_nat i).
Let name (i : nat) : wxString := UTF8CTOWX (item i).
Let val (i : nat) : wxString := tag_value lib ctx ape (item i).

Lemma copy_tag_lookup m i k v :
  copy_tag lib host ctx ape m i !! k = Some v ->
  m !! k = Some v \/
  v = val i /\ (k = name i \/ k = TAG_YEAR /\ Upper (name i) = wxT "DATE").
Proof.
  unfold copy_tag, Tags_SetTag. fold (item i). fold (name i). fold (val i).
  destruct (bool_decide (Upper (name i) = wxT "DATE") && _ && _ && _) eqn:B;
    rewrite lookup_insert_Some; intros [[<- <-]|[_ Hv]]; auto; right; split; auto.
  apply andb_true_iff in B as [[[B _]%andb_true_iff _]%andb_true_iff _].
  apply bool_decide_eq_true in B. auto.
Qed.

Lemma copy_tags_fold_keys (l : list nat) (m : Tags) k v :
  fold_left (copy_tag lib host ctx ape) l m !! k = Some v ->
  m !! k = Some v \/
  exists i, In i l /\ v = val i /\
    (k = name i \/ k = TAG_YEAR /\ Upper (name i) = wxT "DATE").
Proof.
  revert m; induction l as [|i l IH]; intros m H; simpl in H; [auto|].
  destruct (IH _ H) as [H1|[j [Hj Hjv]]].
  - destruct (copy_tag_lookup _ _ _ _ H1) as [H2|H2]; [auto|].
    right. exists i. simpl. auto.
  - right. exists j. simpl. auto.
Qed.

Lemma copy_tag_mono m i k :
  is_Some (m !! k) -> is_Some (copy_tag lib host ctx ape m i !! k).
Proof.
  unfold copy_tag, Tags_SetTag. intros Hk.
  apply lookup_insert_is_Some'. auto.
Qed.

Lemma copy_tags_fold_mono (l : list nat) (m : Tags) k :
  is_Some (m !! k) -> is_Some (fold_left (copy_tag lib host ctx ape) l m !! k).
Proof.
  revert m; induction l as [|i l IH]; intros m Hk; simpl; auto using copy_tag_mono.
Qed.

Lemma copy_tag_item m i :
  is_Some (copy_tag lib host ctx ape m i !! name i) \/
  Upper (name i) = wxT "DATE" /\ is_Some (copy_tag lib host ctx ape m i !! TAG_YEAR).
Proof.
  unfold copy_tag, Tags_SetTag; fold (item i); fold (name i).
  destruct (bool_decide (Upper (name i) = wxT "DATE") && _ && _ && _) eqn:B.
  - right. apply andb_true_iff in B as [[[B _]%andb_true_iff _]%andb_true_iff _].
    apply bool_decide_eq_true in B. split; [done|].
    rewrite lookup_insert_eq. eauto.
  - left. rewrite lookup_insert_eq. eauto.
Qed.

Lemma copy_tags_fold_items (l : list nat) (m : Tags) i :
  In i l ->
  is_Some (fold_left (copy_tag lib host ctx ape) l m !! name i) \/
  Upper (name i) = wxT "DATE" /\
    is_Some (fold_left (copy_tag lib host ctx ape) l m !! TAG_YEAR).
Proof.
  revert m; induction l as [|j l IH]; intros m Hi; [destruct Hi|].
  destruct Hi as [->|Hi]; simpl; [|auto].
  destruct (copy_tag_item m i) as [H|[H1 H2]].
  - left. by apply copy_tags_fold_mono.
  - right. split; [done|]. by apply copy_tags_fold_mono.
Qed.

(** The items are set in index order, so under a name other than DATE
    and YEAR the store ends with the value of the last item of that name. *)
Lemma copy_tags_fold_last (n : nat) (m : Tags) i :
  (i < n)%nat -> Upper (name i) <> wxT "DATE" -> name i <> TAG_YEAR ->
  exists j, (i <= j < n)%nat /\ name j = name i /\
    (forall j', (j < j' < n)%nat -> name j' <> name i) /\
    fold_left (copy_tag lib host ctx ape) (seq 0 n) m !! name i = Some (val j).
Proof.
  induction n as [|n IH]; intros Hi Hd Hy; [lia|].
  rewrite seq_S, fold_left_app. simpl.
  unfold copy_tag at 1, Tags_SetTag. fold (item n). fold (name n). fold (val n).
  destruct (decide (name n = name i)) as [E|E].
  - exists n. split; [|split; [done|split; [lia|]]].
    + destruct (decide (i = n)); [lia|].
      split; [|lia]. lia.
    + rewrite E, (bool_decide_eq_false_2 _ Hd). simpl.
      rewrite lookup_insert_eq. reflexivity.
  - assert (Hin : (i < n)%nat) by (destruct (decide (i = n)); [subst; done|lia]).
    destruct (IH Hin Hd Hy) as [j [Hj [Hjn [Hlast Hl]]]].
    exists j. split; [lia|]. split; [done|]. split.
    + intros j' Hj'. destruct (decide (j' = n)) as [->|]; [done|]. apply Hlast. lia.
    + rewrite lookup_insert_ne; [exact Hl|].
      destruct (_ && _); congruence.
Qed.

End TagLoop.

Lemma Import_tracks fuel h outTracks tags o :
  Import lib host fuel h outTracks tags = Some o ->
  0 <= mNumChannels h -> mNumChannels h * SAMPLES_TO_READ < 2 ^ 32 ->
  Forall (fun ch => 0 <= ch_read ch <= ch_request ch) (io_chunks o) ->
  io_tracks o =
  imap (fun chn t => AppendMany t (channel_samples (Z.to_nat (mNumChannels h)) chn (io_chunks o)))
    (replicate (Z.to_nat (mNumChannels h)) (NewWaveTrack (mFormat h) (mSampleRate h))).
Proof.
  intros HI Hn0 Hn Hrd.
  destruct (Import_inv _ _ _ _ _ HI) as [Hloop _].
  destruct (decode_loop_trace _ _ _ _ _ _ _ _ _ _ _ Hloop) as [Hreq _].
  rewrite <- (Z2Nat.id (mNumChannels h)) in Hloop by done.
  rewrite Nat2Z.id in Hloop.
  eapply decode_loop_tracks; [exact Hloop| | |].
  - apply length_replicate.
  - rewrite Z2Nat.id by done. done.
  - rewrite Forall_forall in Hreq, Hrd |- *. intros ch Hch.
    specialize (Hreq ch Hch). specialize (Hrd ch Hch). lia.
Qed.

Lemma lookup_new_tracks (n : nat) fmt rate samples chn t :
  imap (fun chn t => AppendMany t (samples chn)) (replicate n (NewWaveTrack fmt rate)) !! chn
  = Some t ->
  (chn < n)%nat /\ t = AppendMany (NewWaveTrack fmt rate) (samples chn).
Proof.
  rewrite list_lookup_imap.
  destruct (replicate n (NewWaveTrack fmt rate) !! chn) as [t'|] eqn:E; [|discriminate].
  apply lookup_replicate in E as [-> Hlt]. simpl. intros [= <-]. auto.
Qed.

(* ------------------------------------------------------------------ *)
(** ** The claims *)

(** C1: on an import that ends neither Failed nor Cancelled, of a file with
    [n] channels, [outTracks] holds one group of exactly [n] tracks (none
    when [n = 0]); each track has the file's sample rate and the format
    mapped from its bit depth, and channel [chn] received, chunk after
    chunk, the interleaved elements [f * n + chn] for every frame [f] of the
    chunk.  Assumed: the [uint32_t] buffer size [n * SAMPLES_TO_READ] does
    not wrap, and the library unpacks no more frames than requested. *)
Theorem Import_deinterleaves_channels filename ctx0 fuel outTracks tags o :
  Import lib host fuel (new_WavPackImportFileHandle lib filename ctx0) outTracks tags = Some o ->
  io_result o <> Failed -> io_result o <> Cancelled ->
  0 <= WavpackGetNumChannels lib ctx0 ->
  WavpackGetNumChannels lib ctx0 * SAMPLES_TO_READ < 2 ^ 32 ->
  Forall (fun ch => 0 <= ch_read ch <= ch_request ch) (io_chunks o) ->
  exists tracks,
    io_outTracks o = (if WavpackGetNumChannels lib ctx0 =? 0 then [] else [tracks]) /\
    length tracks = Z.to_nat (WavpackGetNumChannels lib ctx0) /\
    forall chn t, tracks !! chn = Some t ->
      wt_format t = format_of_bits (WavpackGetBitsPerSample lib ctx0) /\
      wt_rate t = WavpackGetSampleRate lib ctx0 /\
      wt_samples t =
        channel_samples (Z.to_nat (WavpackGetNumChannels lib ctx0)) chn (io_chunks o).
Proof.
  intros HI HF HC Hn0 Hn Hrd.
  pose proof (Import_tracks _ _ _ _ _ HI Hn0 Hn Hrd) as Htr. simpl in Htr.
  destruct (Import_inv _ _ _ _ _ HI) as [_ [_ [[[?|?] _]|[_ [Hout _]]]]]; [done|done|].
  exists (map Flush (io_tracks o)). split; [|split].
  - rewrite Hout, Htr.
    destruct (Z.eqb_spec (WavpackGetNumChannels lib ctx0) 0) as [E|E].
    + rewrite E. reflexivity.
    + destruct (Z.to_nat (WavpackGetNumChannels lib ctx0)) eqn:N; [lia|]. reflexivity.
  - rewrite length_map, Htr, length_imap, length_replicate. reflexivity.
  - intros chn t Ht. rewrite list_lookup_fmap, Htr in Ht.
    destruct (imap _ _ !! chn) as [t'|] eqn:E; [|discriminate].
    apply lookup_new_tracks in E as [_ ->]. injection Ht as <-. simpl.
    auto.
Qed.

(** C2: when the decode loop ended Cancelled, or the completeness check
    made the result Failed, [Import] returns Cancelled or Failed with
    [outTracks] empty and the tag store untouched. *)
Theorem Import_cancel_or_fail_returns_early fuel h outTracks tags o :
  Import lib host fuel h outTracks tags = Some o ->
  io_loop_result o = Cancelled \/ io_result o = Failed ->
  (io_result o = Cancelled \/ io_result o = Failed) /\
  io_outTracks o = [] /\ io_tags o = tags.
Proof.
  intros HI Hc.
  destruct (Import_inv _ _ _ _ _ HI) as [_ [Hres [[Hr [Ho Ht]]|[[HF HC] _]]]].
  - split; [|auto]. destruct Hr; auto.
  - exfalso. destruct Hc as [Hc|Hc]; [|done].
    rewrite Hres in HF, HC. unfold completeness_check in HF, HC. rewrite Hc in HF, HC.
    destruct (bool_decide _ && _); done.
Qed.

(** C3: the constructor maps a bit depth of at most 16 to [int16Sample],
    one of 17 to 24 to [int24Sample], and a larger one to [floatSample]. *)
Theorem constructor_sample_format filename ctx :
  (WavpackGetBitsPerSample lib ctx <= 16 ->
     mFormat (new_WavPackImportFileHandle lib filename ctx) = int16Sample) /\
  (17 <= WavpackGetBitsPerSample lib ctx <= 24 ->
     mFormat (new_WavPackImportFileHandle lib filename ctx) = int24Sample) /\
  (24 < WavpackGetBitsPerSample lib ctx ->
     mFormat (new_WavPackImportFileHandle lib filename ctx) = floatSample).
Proof.
  simpl. unfold format_of_bits.
  destruct (Z.leb_spec (WavpackGetBitsPerSample lib ctx) 16),
           (Z.leb_spec (WavpackGetBitsPerSample lib ctx) 24);
    repeat split; intros; auto; lia.
Qed.

(** C4 (amended): on an import that ends neither Failed nor Cancelled,
    when the mode has [MODE_VALID_TAG] and the file has [numItems > 0] tag
    items, the tag store is cleared and item [0 .. numItems - 1] is set in
    turn, its key and its value converted from UTF-8 with [UTF8CTOWX] (text
    that is not UTF-8 becoming the empty string).  Afterwards every entry
    is the converted value of some item, under its converted key (or under
    YEAR for a DATE item); every item's converted key is present (a renamed
    DATE item as YEAR); and under a converted key other than DATE and YEAR
    the store holds the value of the last item with that key. *)
Theorem Import_copies_tags_decoded fuel h outTracks tags o :
  Import lib host fuel h outTracks tags = Some o ->
  io_result o <> Failed -> io_result o <> Cancelled ->
  Z.land (WavpackGetMode lib (io_ctx o)) MODE_VALID_TAG <> 0 ->
  0 < WavpackGetNumTagItems lib (io_ctx o) ->
  let ctx := io_ctx o in
  let ape := negb (Z.land (WavpackGetMode lib ctx) MODE_APETAG =? 0) in
  let n := Z.to_nat (WavpackGetNumTagItems lib ctx) in
  let item i := WavpackGetTagItemIndexed lib ctx (Z.of_nat i) in
  let name i := UTF8CTOWX (item i) in
  let value i := tag_value lib ctx ape (item i) in
  io_tags o = fold_left (copy_tag lib host ctx ape) (seq 0 n) (Tags_Clear tags) /\
  (forall k v, io_tags o !! k = Some v ->
     exists i, (i < n)%nat /\ v = value i /\
       (k = name i \/ k = TAG_YEAR /\ Upper (name i) = wxT "DATE")) /\
  (forall i, (i < n)%nat ->
     is_Some (io_tags o !! name i) \/
     Upper (name i) = wxT "DATE" /\ is_Some (io_tags o !! TAG_YEAR)) /\
  (forall i, (i < n)%nat -> Upper (name i) <> wxT "DATE" -> name i <> TAG_YEAR ->
     exists j, (i <= j < n)%nat /\ name j = name i /\
       (forall j', (j < j' < n)%nat -> name j' <> name i) /\
       io_tags o !! name i = Some (value j)).
Proof.
  intros HI HF HC Hv Hn. cbv zeta.
  destruct (Import_inv _ _ _ _ _ HI) as [_ [_ [[[?|?] _]|[_ [_ Ht]]]]]; [done|done|].
  set (ctx := io_ctx o) in *.
  rewrite Ht. unfold copy_tags.
  rewrite (proj2 (Z.eqb_neq _ _) Hv). cbn [negb].
  rewrite (proj2 (Z.ltb_lt _ _) Hn).
  split; [reflexivity|]. split; [|split].
  - intros k v Hk.
    destruct (copy_tags_fold_keys _ _ _ _ _ _ Hk) as [E|[i [Hi Hiv]]];
      [unfold Tags_Clear in E; rewrite lookup_empty in E; discriminate|].
    apply in_seq in Hi. exists i. split; [lia|exact Hiv].
  - intros i Hi. apply copy_tags_fold_items. apply in_seq. lia.
  - intros i Hi Hd Hy. apply copy_tags_fold_last; done.
Qed.

(** C5: every iteration of the decode loop asks the library for
    [SAMPLES_TO_READ = 100000] frames; the loop goes on while the progress
    dialog answers Success and frames were read, and stops at the first
    iteration where the library returns 0 frames or the dialog answers
    something else (with that answer).  If the library returns 0 frames at
    its [k]-th call, [Import] finishes within [k + 1] iterations. *)
Theorem Import_chunked_decode_terminates h outTracks tags :
  (forall fuel o, Import lib host fuel h outTracks tags = Some o ->
     Forall (fun ch => ch_request ch = SAMPLES_TO_READ) (io_chunks o) /\
     exists pre last, io_chunks o = pre ++ [last] /\
       Forall (fun ch => ch_update ch = Success /\ ch_read ch <> 0) pre /\
       (ch_read last = 0 \/ ch_update last <> Success) /\
       io_loop_result o = ch_update last) /\
  (forall k, snd (WavpackUnpackSamples lib (lib_state lib (mWavPackContext h) k)
                    SAMPLES_TO_READ) = 0 ->
     exists o, Import lib host (S k) h outTracks tags = Some o).
Proof.
  split.
  - intros fuel o HI. destruct (Import_inv _ _ _ _ _ HI) as [Hloop _].
    exact (decode_loop_trace _ _ _ _ _ _ _ _ _ _ _ Hloop).
  - intros k Hk.
    destruct (decode_loop_terminates k 0 (mNumChannels h) (mWavPackContext h)
                (replicate (Z.to_nat (mNumChannels h)) (NewWaveTrack (mFormat h) (mSampleRate h)))
                0 Hk) as [[[[[c ts] t] r] tr] E].
    unfold Import. rewrite E.
    destruct (bool_decide _ || bool_decide _); eauto.
Qed.

(** C6: [Open] gives no handle exactly when [WavpackOpenFileInput] gives
    no context, and a handle for the file on that context otherwise. *)
Theorem Open_null_iff_library_null filename :
  (WavPackImportPlugin_Open lib filename = None <->
   WavpackOpenFileInput lib filename (Z.lor (Z.lor OPEN_WVC OPEN_FILE_UTF8) OPEN_TAGS) = None) /\
  (forall ctx,
   WavpackOpenFileInput lib filename (Z.lor (Z.lor OPEN_WVC OPEN_FILE_UTF8) OPEN_TAGS) = Some ctx ->
   WavPackImportPlugin_Open lib filename = Some (new_WavPackImportFileHandle lib filename ctx)).
Proof.
  unfold WavPackImportPlugin_Open.
  destruct (WavpackOpenFileInput lib filename _); split; try split; intros; congruence.
Qed.

(** C8: [totalSamplesRead] is the sum of the frames read modulo [2^32]; a
    result other than Failed means the loop ended Stopped or this wrapped
    total reached the [int64_t] frame count; so a file declaring at least
    [2^32] frames always imports as Failed or Stopped. *)
Theorem Import_total_wraps_32bit fuel h outTracks tags o :
  Import lib host fuel h outTracks tags = Some o ->
  io_total o = sum_read (io_chunks o) mod 2 ^ 32 /\
  (io_result o <> Failed ->
     io_loop_result o = Stopped \/ mNumSamples h <= io_total o) /\
  (2 ^ 32 <= mNumSamples h -> io_result o = Failed \/ io_result o = Stopped).
Proof.
  intros HI. destruct (Import_inv _ _ _ _ _ HI) as [Hloop [Hres _]].
  pose proof (decode_loop_total _ _ _ _ _ _ _ _ _ _ _ Hloop) as Ht.
  simpl in Ht. unfold u32 in Ht.
  assert (Hb : 0 <= io_total o < 2 ^ 32) by (rewrite Ht; apply Z.mod_pos_bound; lia).
  split; [exact Ht|]. rewrite Hres. unfold completeness_check.
  split.
  - destruct (decide (io_loop_result o = Stopped)) as [E|E]; [auto|].
    rewrite (bool_decide_eq_true_2 _ E). simpl.
    destruct (Z.ltb_spec (io_total o) (mNumSamples h)); [done|]. auto.
  - intros Hbig.
    destruct (decide (io_loop_result o = Stopped)) as [E|E].
    + rewrite E. simpl. auto.
    + rewrite (bool_decide_eq_true_2 _ E). simpl.
      rewrite (proj2 (Z.ltb_lt _ _)) by lia. auto.
Qed.

(** C9: when the progress dialog answers Stopped, the loop ends there, the
    result stays Stopped, the tracks decoded so far are flushed and handed
    over (one group, when there are channels), and the tags are copied as
    on a complete import. *)
Theorem Import_stopped_keeps_partial fuel h outTracks tags o :
  Import lib host fuel h outTracks tags = Some o ->
  io_loop_result o = Stopped ->
  0 <= mNumChannels h -> mNumChannels h * SAMPLES_TO_READ < 2 ^ 32 ->
  Forall (fun ch => 0 <= ch_read ch <= ch_request ch) (io_chunks o) ->
  io_result o = Stopped /\
  (exists pre last, io_chunks o = pre ++ [last] /\ ch_update last = Stopped /\
     Forall (fun ch => ch_update ch = Success) pre) /\
  io_outTracks o = (if mNumChannels h =? 0 then [] else [map Flush (io_tracks o)]) /\
  Forall (fun t => wt_flushed t = true) (concat (io_outTracks o)) /\
  (forall chn t, io_tracks o !! chn = Some t ->
     wt_samples t = channel_samples (Z.to_nat (mNumChannels h)) chn (io_chunks o)) /\
  io_tags o = copy_tags lib host (io_ctx o) tags.
Proof.
  intros HI HS Hn0 Hn Hrd.
  destruct (Import_inv _ _ _ _ _ HI) as [Hloop [Hres Hexit]].
  assert (HR : io_result o = Stopped) by (rewrite Hres; unfold completeness_check; rewrite HS; done).
  destruct Hexit as [[[?|?] _]|[_ [Hout Htags]]]; [congruence|congruence|].
  pose proof (Import_tracks _ _ _ _ _ HI Hn0 Hn Hrd) as Htr.
  assert (Hout' : io_outTracks o =
            (if mNumChannels h =? 0 then [] else [map Flush (io_tracks o)])).
  { rewrite Hout, Htr.
    destruct (Z.eqb_spec (mNumChannels h) 0) as [E|E].
    - rewrite E. reflexivity.
    - destruct (Z.to_nat (mNumChannels h)) eqn:N; [lia|]. reflexivity. }
  split; [exact HR|]. split; [|split; [exact Hout'|split; [|split]]].
  - destruct (decode_loop_trace _ _ _ _ _ _ _ _ _ _ _ Hloop)
      as [_ [pre [last [Heq [Hpre [_ Hlast]]]]]].
    exists pre, last. repeat split; [exact Heq|congruence|].
    eapply Forall_impl; [exact Hpre|]. intros ch [? _]; done.
  - rewrite Hout'. destruct (_ =? _); simpl; [constructor|].
    rewrite app_nil_r. apply Forall_forall. intros t Ht.
    apply list_elem_of_In, in_map_iff in Ht as [t' [<- _]]. reflexivity.
  - intros chn t Ht. rewrite Htr in Ht.
    apply lookup_new_tracks in Ht as [_ ->]. reflexivity.
  - exact Htags.
Qed.

(** C10: when the mode has no valid tag block, or the file has no tag
    items, [Import] leaves the tag store as it was. *)
Theorem Import_no_tags_leaves_store fuel h outTracks tags o :
  Import lib host fuel h outTracks tags = Some o ->
  Z.land (WavpackGetMode lib (io_ctx o)) MODE_VALID_TAG = 0 \/
  WavpackGetNumTagItems lib (io_ctx o) <= 0 ->
  io_tags o = tags.
Proof.
  intros HI Hno.
  destruct (Import_inv _ _ _ _ _ HI) as [_ [_ [[_ [_ Ht]]|[_ [_ Ht]]]]]; [exact Ht|].
  rewrite Ht. unfold copy_tags.
  destruct Hno as [E|E].
  - rewrite E. reflexivity.
  - destruct (Z.land _ _ =? 0); simpl; [reflexivity|].
    rewrite (proj2 (Z.ltb_ge _ _) E). reflexivity.
Qed.

End Proofs.

(** C7: the plugin registers the single extension "wv", and every file
    handle reports one stream. *)
Theorem plugin_extension_and_stream_count :
  WavPackImportPlugin_extensions = ["wv"%string] /\
  forall (Ctx : Type) (h : WavPackImportFileHandle Ctx), GetStreamCount h = 1.
Proof. split; reflexivity. Qed.


(* ------------------------------------------------------------------ *)
(** ** The claims on concrete runs *)

Ltac run_import e := match eval vm_compute in e with Some ?v => exists v end.

Lemma Import_deinterleaves_channels_witness :
  exists o, demo_import demo_tagged [] ∅ = Some o /\
  exists tracks, io_outTracks o = [tracks] /\ length tracks = 2%nat /\
    forall chn t, tracks !! chn = Some t ->
      wt_format t = int16Sample /\ wt_rate t = 44100 /\
      wt_samples t = channel_samples 2 chn (io_chunks o).
Proof.
  run_import (demo_import demo_tagged [] ∅).
  split; [vm_compute; reflexivity|].
  apply (Import_deinterleaves_channels demo_tagged (demo_host []) "a.wv" 0%nat 5 [] ∅);
    [vm_compute; reflexivity | vm_compute; discriminate | vm_compute; discriminate
    | simpl; lia | vm_compute; reflexivity | repeat constructor; simpl; lia].
Defined.

Lemma Import_cancel_or_fail_returns_early_witness :
  exists o, demo_import demo_tagged [Cancelled] {[ wxT "X" := wxT "y" ]} = Some o /\
  (io_result o = Cancelled \/ io_result o = Failed) /\
  io_outTracks o = [] /\ io_tags o = {[ wxT "X" := wxT "y" ]}.
Proof.
  run_import (demo_import demo_tagged [Cancelled] {[ wxT "X" := wxT "y" ]}).
  split; [vm_compute; reflexivity|].
  apply (Import_cancel_or_fail_returns_early demo_tagged (demo_host [Cancelled]) 5
           (demo_handle demo_tagged) [] {[ wxT "X" := wxT "y" ]});
    [vm_compute; reflexivity | left; vm_compute; reflexivity].
Defined.

Lemma constructor_sample_format_witness :
  mFormat (new_WavPackImportFileHandle (demo_lib 0 0 0) "a.wv" 0%nat) = int16Sample.
Proof.
  apply (proj1 (constructor_sample_format (demo_lib 0 0 0) "a.wv" 0%nat)).
  simpl. lia.
Defined.

Lemma Import_copies_tags_decoded_witness :
  exists o, demo_import demo_tagged [] {[ wxT "X" := wxT "y" ]} = Some o /\
  io_tags o !! wxT "Title" = Some (wxT "A\B") /\ io_tags o !! wxT "X" = None.
Proof.
  run_import (demo_import demo_tagged [] {[ wxT "X" := wxT "y" ]}).
  split; [vm_compute; reflexivity|].
  destruct (Import_copies_tags_decoded demo_tagged (demo_host []) 5 (demo_handle demo_tagged) []
              {[ wxT "X" := wxT "y" ]} _ ltac:(vm_compute; reflexivity)
              ltac:(vm_compute; discriminate) ltac:(vm_compute; discriminate)
              ltac:(vm_compute; discriminate) ltac:(vm_compute; reflexivity))
    as [_ [Hkeys [_ Hval]]].
  split.
  - destruct (Hval 0%nat ltac:(vm_compute; lia) ltac:(vm_compute; discriminate)
                ltac:(vm_compute; discriminate)) as [j [Hj [Hname [_ Hl]]]].
    destruct j as [|[|j]]; [| |vm_compute in Hj; lia].
    + exact Hl.
    + vm_compute in Hname. discriminate Hname.
  - destruct (_ !! wxT "X") as [v|] eqn:E; [|reflexivity].
    destruct (Hkeys _ _ E) as [i [Hi [_ Hk]]].
    destruct i as [|[|i]]; [| |vm_compute in Hi; lia]; vm_compute in Hk;
      destruct Hk as [Hk|[Hk _]]; discriminate Hk.
Defined.

(** C4 as first stated fails on a file whose tags are written in Latin-1:
    it has three tag items, but the value "Caf" 0xE9 of Title is not UTF-8
    and is stored empty, and the two keys 0xFF "1" and 0xFF "2" both
    convert to the empty name, the second overwriting the first.  The
    store ends with two entries, neither holding a value of the file. *)
Lemma Import_copies_tags_counterexample :
  exists o, demo_import latin1_lib [] ∅ = Some o /\
  io_result o = Success /\ WavpackGetNumTagItems latin1_lib (io_ctx o) = 3 /\
  io_tags o = {[ wxT "Title" := []; [] := wxT "2" ]} /\
  io_tags o !! wxT "Title" <> Some (c_bytes latin1_cafe).
Proof.
  run_import (demo_import latin1_lib [] ∅).
  split; [vm_compute; reflexivity|].
  split; [vm_compute; reflexivity|]. split; [vm_compute; reflexivity|].
  split; [vm_compute; reflexivity|]. vm_compute. discriminate.
Qed.

Lemma Import_chunked_decode_terminates_witness :
  exists o, Import demo_tagged (demo_host []) 2 (demo_handle demo_tagged) [] ∅ = Some o.
Proof.
  apply (proj2 (Import_chunked_decode_terminates demo_tagged (demo_host [])
                  (demo_handle demo_tagged) [] ∅) 1%nat).
  vm_compute. reflexivity.
Defined.

Lemma Open_null_iff_library_null_witness :
  WavPackImportPlugin_Open demo_tagged "b.wv" = None.
Proof.
  apply (proj2 (proj1 (Open_null_iff_library_null demo_tagged "b.wv"))).
  vm_compute. reflexivity.
Defined.

Lemma Import_total_wraps_32bit_witness :
  exists o, demo_import (demo_lib 0x110 2 (2 ^ 32 + 3)) [] ∅ = Some o /\
  (io_result o = Failed \/ io_result o = Stopped).
Proof.
  run_import (demo_import (demo_lib 0x110 2 (2 ^ 32 + 3)) [] ∅).
  split; [vm_compute; reflexivity|].
  apply (Import_total_wraps_32bit (demo_lib 0x110 2 (2 ^ 32 + 3)) (demo_host []) 5
           (demo_handle (demo_lib 0x110 2 (2 ^ 32 + 3))) [] ∅);
    [vm_compute; reflexivity | simpl; lia].
Defined.

Lemma Import_stopped_keeps_partial_witness :
  exists o, demo_import demo_tagged [Stopped] ∅ = Some o /\
  io_result o = Stopped /\ io_outTracks o = [map Flush (io_tracks o)].
Proof.
  run_import (demo_import demo_tagged [Stopped] ∅).
  split; [vm_compute; reflexivity|].
  destruct (Import_stopped_keeps_partial demo_tagged (demo_host [Stopped]) 5
              (demo_handle demo_tagged) [] ∅ _ ltac:(vm_compute; reflexivity)
              ltac:(vm_compute; reflexivity) ltac:(simpl; lia)
              ltac:(vm_compute; reflexivity) ltac:(repeat constructor; simpl; lia))
    as [Hr [_ [Ho _]]].
  split; [exact Hr|exact Ho].
Defined.

Lemma Import_no_tags_leaves_store_witness :
  exists o, demo_import (demo_lib 0 2 3) [] {[ wxT "X" := wxT "y" ]} = Some o /\
  io_tags o = {[ wxT "X" := wxT "y" ]}.
Proof.
  run_import (demo_import (demo_lib 0 2 3) [] {[ wxT "X" := wxT "y" ]}).
  split; [vm_compute; reflexivity|].
  apply (Import_no_tags_leaves_store (demo_lib 0 2 3) (demo_host []) 5
           (demo_handle (demo_lib 0 2 3)) [] {[ wxT "X" := wxT "y" ]});
    [vm_compute; reflexivity | left; vm_compute; reflexivity].
Defined.


(* ------------------------------------------------------------------ *)
(** ** Further properties of the import *)

Section Extras.

Context {Ctx : Type} (lib : WavpackLib Ctx) (host : Host).

Implicit Types (h : WavPackImportFileHandle Ctx) (tags : Tags) (o : @ImportOut Ctx).

Lemma length_channel_samples (n chn : nat) (tr : list Chunk) :
  Forall (fun ch => 0 <= ch_read ch) tr ->
  Z.of_nat (length (channel_samples n chn tr)) = sum_read tr.
Proof.
  induction tr as [|ch tr IH]; intros Hr; [done|].
  inversion Hr as [|? ? H0 Hrest]; subst.
  unfold channel_samples in *; simpl.
  rewrite length_app, Nat2Z.inj_add, IH by done.
  unfold chunk_channel. rewrite length_map, length_seq, Z2Nat.id by done. done.
Qed.

(** Every track handed over is flushed, has the handle's format and rate,
    and holds as many samples as frames were read in total: the channels
    stay aligned. *)
Theorem Import_tracks_aligned fuel h outTracks tags o :
  Import lib host fuel h outTracks tags = Some o ->
  0 <= mNumChannels h -> mNumChannels h * SAMPLES_TO_READ < 2 ^ 32 ->
  Forall (fun ch => 0 <= ch_read ch <= ch_request ch) (io_chunks o) ->
  Forall (fun g => Forall (fun t =>
      wt_flushed t = true /\ wt_format t = mFormat h /\ wt_rate t = mSampleRate h /\
      Z.of_nat (length (wt_samples t)) = sum_read (io_chunks o)) g) (io_outTracks o).
Proof.
  intros HI Hn0 Hn Hrd.
  pose proof (Import_tracks lib host _ _ _ _ _ HI Hn0 Hn Hrd) as Htr.
  destruct (Import_inv lib host _ _ _ _ _ HI) as [_ [_ [[_ [Ho _]]|[_ [Ho _]]]]];
    rewrite Ho; [constructor|].
  assert (HG : Forall (fun t =>
      wt_flushed t = true /\ wt_format t = mFormat h /\ wt_rate t = mSampleRate h /\
      Z.of_nat (length (wt_samples t)) = sum_read (io_chunks o)) (map Flush (io_tracks o))).
  { apply Forall_forall. intros t Ht.
    apply list_elem_of_lookup in Ht as [chn Hchn].
    rewrite list_lookup_fmap, Htr in Hchn.
    destruct (imap _ _ !! chn) as [t'|] eqn:E; [|discriminate].
    apply lookup_new_tracks in E as [_ ->]. injection Hchn as <-. simpl.
    repeat split. apply length_channel_samples.
    eapply Forall_impl; [exact Hrd|]. intros ch [? _]; done. }
  destruct (map Flush (io_tracks o)); [constructor|constructor; [exact HG|constructor]].
Qed.

(** A short file: when the frames read add up (without wrapping) to fewer
    than the declared count and the user did not stop, [Import] fails,
    hands over no track and leaves the tag store alone. *)
Theorem Import_short_file_fails fuel h outTracks tags o :
  Import lib host fuel h outTracks tags = Some o ->
  Forall (fun ch => 0 <= ch_read ch) (io_chunks o) ->
  sum_read (io_chunks o) < 2 ^ 32 ->
  sum_read (io_chunks o) < mNumSamples h ->
  io_loop_result o <> Stopped ->
  io_result o = Failed /\ io_outTracks o = [] /\ io_tags o = tags.
Proof.
  intros HI Hr Hw Hs HS.
  destruct (Import_inv lib host _ _ _ _ _ HI) as [Hloop [Hres Hexit]].
  pose proof (decode_loop_total lib host _ _ _ _ _ _ _ _ _ _ _ Hloop) as Ht.
  simpl in Ht. unfold u32 in Ht.
  assert (H0 : 0 <= sum_read (io_chunks o)).
  { clear -Hr. induction (io_chunks o) as [|ch tr IH]; simpl; [lia|].
    inversion Hr; subst. specialize (IH ltac:(assumption)). lia. }
  rewrite Z.mod_small in Ht by lia.
  assert (HF : io_result o = Failed).
  { rewrite Hres. unfold completeness_check.
    rewrite (bool_decide_eq_true_2 _ HS). simpl.
    rewrite (proj2 (Z.ltb_lt _ _)) by lia. done. }
  destruct Hexit as [[_ [Ho Htg]]|[[? _] _]]; [auto|done].
Qed.

(** A Success import read the file to its end: the last call of the
    library returned 0 frames, and the wrapped total reached the declared
    count. *)
Theorem Import_success_reached_end fuel h outTracks tags o :
  Import lib host fuel h outTracks tags = Some o ->
  io_result o = Success ->
  (exists pre last, io_chunks o = pre ++ [last] /\ ch_read last = 0) /\
  mNumSamples h <= io_total o.
Proof.
  intros HI HS. destruct (Import_inv lib host _ _ _ _ _ HI) as [Hloop [Hres _]].
  destruct (decode_loop_trace lib host _ _ _ _ _ _ _ _ _ _ _ Hloop)
    as [_ [pre [last [Heq [_ [Hlast Hr]]]]]].
  rewrite Hres in HS. unfold completeness_check in HS.
  destruct (bool_decide _ && _) eqn:B; [discriminate|].
  split.
  - exists pre, last. split; [done|].
    destruct Hlast as [?|Hu]; [done|]. congruence.
  - apply andb_false_iff in B as [B|B].
    + apply bool_decide_eq_false in B. exfalso. apply B. congruence.
    + apply Z.ltb_ge in B. done.
Qed.

(** With the total below [2^32], every track handed over by a Success
    import holds at least the declared number of frames. *)
Theorem Import_success_tracks_complete fuel h outTracks tags o :
  Import lib host fuel h outTracks tags = Some o ->
  io_result o = Success ->
  0 <= mNumChannels h -> mNumChannels h * SAMPLES_TO_READ < 2 ^ 32 ->
  Forall (fun ch => 0 <= ch_read ch <= ch_request ch) (io_chunks o) ->
  sum_read (io_chunks o) < 2 ^ 32 ->
  Forall (fun g => Forall (fun t => mNumSamples h <= Z.of_nat (length (wt_samples t))) g)
    (io_outTracks o).
Proof.
  intros HI HS Hn0 Hn Hrd Hw.
  destruct (Import_inv lib host _ _ _ _ _ HI) as [Hloop [Hres _]].
  assert (Hge : mNumSamples h <= io_total o).
  { rewrite Hres in HS. unfold completeness_check in HS.
    destruct (bool_decide _ && _) eqn:B; [discriminate|].
    apply andb_false_iff in B as [B|B].
    - apply bool_decide_eq_false in B. exfalso. apply B. congruence.
    - apply Z.ltb_ge in B. done. }
  pose proof (decode_loop_total lib host _ _ _ _ _ _ _ _ _ _ _ Hloop) as Ht.
  simpl in Ht. unfold u32 in Ht.
  assert (H0 : 0 <= sum_read (io_chunks o)).
  { clear -Hrd. induction (io_chunks o) as [|ch tr IH]; simpl; [lia|].
    inversion Hrd as [|? ? [? _] ?]; subst. specialize (IH ltac:(assumption)). lia. }
  rewrite Z.mod_small in Ht by lia.
  pose proof (Import_tracks_aligned _ _ _ _ _ HI Hn0 Hn Hrd) as HA.
  eapply Forall_impl; [exact HA|]. intros g Hg.
  eapply Forall_impl; [exact Hg|]. intros t (_ & _ & _ & Hl). lia.
Qed.

Lemma c_str_replace_nuls (s : string) : c_str (replace_nuls s) = replace_nuls s.
Proof.
  induction s as [|a s IH]; simpl; [done|].
  destruct (Ascii.eqb a Ascii.zero) eqn:E; simpl; [rewrite IH; done|].
  rewrite E, IH. done.
Qed.

Lemma c_bytes_app (s1 s2 : string) : c_bytes (s1 ++ s2) = c_bytes s1 ++ c_bytes s2.
Proof. induction s1 as [|a s1 IH]; simpl; [done|]. unfold c_bytes in *. simpl. by rewrite IH. Qed.

Lemma c_bytes_replace_nuls (s : string) :
  c_bytes (replace_nuls s) = map (fun b => if b =? 0 then 92 else b) (c_bytes s).
Proof.
  induction s as [|a s IH]; [done|]. unfold c_bytes in *. simpl. rewrite IH. f_equal.
  destruct (Ascii.eqb_spec a Ascii.zero) as [->|Hne]; [done|].
  destruct (Z.eqb_spec (Z.of_nat (Ascii.nat_of_ascii a)) 0) as [E|]; [|done].
  exfalso. apply Hne. rewrite <- (Ascii.ascii_nat_embedding a).
  replace (Ascii.nat_of_ascii a) with 0%nat by lia. reflexivity.
Qed.

Lemma c_str_split (s : string) :
  exists rest, s = (c_str s ++ rest)%string /\
    (rest = EmptyString \/ exists r, rest = String Ascii.zero r).
Proof.
  induction s as [|a s [rest [E Hr]]]; [exists EmptyString; auto|].
  simpl. destruct (Ascii.eqb_spec a Ascii.zero) as [->|]; simpl.
  - exists (String Ascii.zero s). eauto.
  - exists rest. split; [|exact Hr].
    change (String a s = String a (c_str s ++ rest)%string). f_equal. exact E.
Qed.

Lemma c_bytes_c_str_not_nul (s : string) : Forall (fun b => b <> 0) (c_bytes (c_str s)).
Proof.
  induction s as [|a s IH]; simpl; [constructor|].
  destruct (Ascii.eqb_spec a Ascii.zero) as [->|Hne]; [constructor|].
  unfold c_bytes in *; simpl. constructor; [|exact IH].
  intros E. apply Hne. rewrite <- (Ascii.ascii_nat_embedding a).
  replace (Ascii.nat_of_ascii a) with 0%nat by lia. reflexivity.
Qed.

Lemma c_bytes_nonneg (s : string) : Forall (fun b => 0 <= b) (c_bytes s).
Proof. apply Forall_forall. intros b Hb. apply list_elem_of_In, in_map_iff in Hb as [a [<- _]]. lia. Qed.

(** The strict converter reads ASCII text as it is. *)
Lemma ToWChar_ascii (l : list Z) : Forall (fun b => 0 <= b < 128) l -> ToWChar O 0 l = Some l.
Proof.
  induction l as [|b l IH]; intros Hl; [done|].
  inversion Hl as [|? ? Hb Hrest]; subst.
  assert (Hlow : Z.land b 0x7F = b).
  { change 0x7F with (Z.ones 7). rewrite Z.land_ones by lia. apply Z.mod_small. lia. }
  assert (Hhigh : Z.land b 0x80 = 0).
  { rewrite <- Hlow, <- Z.land_assoc. change (Z.land 0x7F 0x80) with 0. apply Z.land_0_r. }
  simpl. unfold tableUtf8Lengths. rewrite (proj2 (Z.ltb_lt b 0x80)) by lia.
  cbn [leadMarkerMask leadMarkerVal leadValueMask nth].
  rewrite Hhigh, Hlow, IH by done. reflexivity.
Qed.

(** The value stored for an ASCII tag value: for an APEv2 tag, every
    character of the value is kept, a NUL separator becoming a backslash;
    for another tag, the value is the raw value up to its first NUL, and
    it holds no NUL. *)
Theorem tag_value_ascii ctx key :
  let raw := WavpackGetTagItem lib ctx key in
  Forall (fun b => b < 128) (c_bytes raw) ->
  tag_value lib ctx true key = map (fun b => if b =? 0 then 92 else b) (c_bytes raw) /\
  (exists rest, raw = (c_str raw ++ rest)%string /\
     (rest = EmptyString \/ exists r, rest = String Ascii.zero r)) /\
  tag_value lib ctx false key = c_bytes (c_str raw) /\
  Forall (fun b => b <> 0) (tag_value lib ctx false key).
Proof.
  cbv zeta. intros Hascii.
  set (raw := WavpackGetTagItem lib ctx key) in *.
  assert (Hraw : Forall (fun b => 0 <= b < 128) (c_bytes raw)).
  { apply Forall_and; split; [apply c_bytes_nonneg|exact Hascii]. }
  destruct (c_str_split raw) as [rest [E Hrest]].
  assert (Hpre : Forall (fun b => 0 <= b < 128) (c_bytes (c_str raw))).
  { rewrite E, c_bytes_app in Hraw. apply Forall_app in Hraw. apply Hraw. }
  assert (Hfalse : tag_value lib ctx false key = c_bytes (c_str raw)).
  { unfold tag_value, UTF8CTOWX. fold raw. rewrite ToWChar_ascii by done. reflexivity. }
  split; [|split; [exists rest; split; assumption|split; [exact Hfalse|]]].
  - unfold tag_value, UTF8CTOWX. fold raw.
    rewrite c_str_replace_nuls, c_bytes_replace_nuls, ToWChar_ascii; [reflexivity|].
    apply Forall_fmap. eapply Forall_impl; [exact Hraw|]. intros b Hb. cbv beta in Hb. unfold compose.
    destruct (b =? 0); lia.
  - rewrite Hfalse. apply c_bytes_c_str_not_nul.
Qed.

(** Once the store holds a YEAR entry during the tag loop, items whose key
    is not YEAR leave it unchanged; in particular a later DATE item does not
    overwrite the year. *)
Theorem copy_tags_keep_year (ctx : Ctx) (ape : bool) (l : list nat) (m : Tags) (v : wxString) :
  m !! TAG_YEAR = Some v ->
  (forall i, In i l -> UTF8CTOWX (WavpackGetTagItemIndexed lib ctx (Z.of_nat i)) <> TAG_YEAR) ->
  fold_left (copy_tag lib host ctx ape) l m !! TAG_YEAR = Some v.
Proof.
  revert m; induction l as [|i l IH]; intros m Hm Hl; simpl; [done|].
  apply IH; [|intros j Hj; apply Hl; simpl; auto].
  unfold copy_tag, Tags_SetTag.
  replace (Tags_HasTag m TAG_YEAR) with true
    by (symmetry; apply bool_decide_eq_true_2; eauto).
  rewrite andb_false_r. simpl.
  rewrite lookup_insert_ne; [done|]. intros E. apply (Hl i); simpl; auto.
Qed.

(** When the file has a valid tag block with items, the tags after a
    complete import do not depend on the store passed in: the file's tags
    replace it. *)
Theorem Import_tags_replace_store fuel h outTracks t1 t2 o1 o2 :
  Import lib host fuel h outTracks t1 = Some o1 ->
  Import lib host fuel h outTracks t2 = Some o2 ->
  io_result o1 <> Failed -> io_result o1 <> Cancelled ->
  Z.land (WavpackGetMode lib (io_ctx o1)) MODE_VALID_TAG <> 0 ->
  0 < WavpackGetNumTagItems lib (io_ctx o1) ->
  io_tags o1 = io_tags o2.
Proof.
  intros H1 H2 HF HC Hv Hn.
  destruct (Import_inv lib host _ _ _ _ _ H1) as [L1 [R1 E1]].
  destruct (Import_inv lib host _ _ _ _ _ H2) as [L2 [R2 E2]].
  rewrite L1 in L2. injection L2 as Hc Htr Htot Hlr Hch.
  assert (Hr : io_result o1 = io_result o2) by (rewrite R1, R2; congruence).
  destruct E1 as [[[?|?] _]|[_ [_ T1]]]; [done|done|].
  destruct E2 as [[[?|?] _]|[_ [_ T2]]]; [congruence|congruence|].
  rewrite T1, T2, <- Hc. unfold copy_tags.
  rewrite (proj2 (Z.eqb_neq _ _) Hv). cbn [negb].
  rewrite (proj2 (Z.ltb_lt _ _) Hn). reflexivity.
Qed.

End Extras.

(** Deinterleaving one chunk loses nothing: each interleaved element [c]
    below [samplesRead * n] is appended to channel [c mod n], as sample
    [c / n] of the chunk. *)
Theorem append_chunk_lossless (buf : list Z) (n : nat) (sr : Z) (chans : list WaveTrack) (c : nat) :
  0 <= sr <= SAMPLES_TO_READ -> (0 < n)%nat -> Z.of_nat n * SAMPLES_TO_READ < 2 ^ 32 ->
  length chans = n -> (c < Z.to_nat sr * n)%nat ->
  exists t0 t, chans !! (c mod n)%nat = Some t0 /\
    append_chunk (Z.of_nat n) buf sr chans !! (c mod n)%nat = Some t /\
    wt_samples t !! (length (wt_samples t0) + c / n)%nat = Some (nth c buf 0).
Proof.
  intros Hsr Hn Hb Hlen Hc.
  pose proof (Nat.mod_upper_bound c n ltac:(lia)) as Hm.
  pose proof (Nat.div_mod_eq c n) as Hd.
  assert (Hq : (c / n < Z.to_nat sr)%nat) by nia.
  destruct (lookup_lt_is_Some_2 chans (c mod n)%nat ltac:(lia)) as [t0 Ht0].
  exists t0. rewrite append_chunk_eq by done.
  rewrite list_lookup_imap, Ht0. simpl.
  eexists. split; [done|]. split; [reflexivity|]. simpl.
  rewrite lookup_app_r by lia.
  replace (length (wt_samples t0) + c / n - length (wt_samples t0))%nat with (c / n)%nat by lia.
  rewrite list_lookup_fmap, lookup_seq_lt by done. simpl.
  do 2 f_equal. lia.
Qed.

(* ------------------------------------------------------------------ *)
(** ** The further properties on concrete runs *)

Lemma Import_tracks_aligned_witness :
  exists o, demo_import demo_tagged [Stopped] ∅ = Some o /\
  Forall (fun g => Forall (fun t => Z.of_nat (length (wt_samples t)) = 3) g) (io_outTracks o).
Proof.
  run_import (demo_import demo_tagged [Stopped] ∅).
  split; [vm_compute; reflexivity|].
  pose proof (Import_tracks_aligned demo_tagged (demo_host [Stopped]) 5
                (demo_handle demo_tagged) [] ∅ _ ltac:(vm_compute; reflexivity)
                ltac:(simpl; lia) ltac:(vm_compute; reflexivity)
                ltac:(repeat constructor; simpl; lia)) as HA.
  eapply Forall_impl; [exact HA|]. intros g Hg.
  eapply Forall_impl; [exact Hg|]. intros t (_ & _ & _ & Hl). exact Hl.
Defined.

Lemma Import_short_file_fails_witness :
  exists o, demo_import (demo_lib 0x110 2 5) [] ∅ = Some o /\
  io_result o = Failed /\ io_outTracks o = [] /\ io_tags o = ∅.
Proof.
  run_import (demo_import (demo_lib 0x110 2 5) [] ∅).
  split; [vm_compute; reflexivity|].
  apply (Import_short_file_fails (demo_lib 0x110 2 5) (demo_host []) 5
           (demo_handle (demo_lib 0x110 2 5)) [] ∅);
    [vm_compute; reflexivity | repeat constructor; simpl; lia | simpl; lia
    | simpl; lia | vm_compute; discriminate].
Defined.

Lemma Import_success_reached_end_witness :
  exists o, demo_import demo_tagged [] ∅ = Some o /\
  (exists pre last, io_chunks o = pre ++ [last] /\ ch_read last = 0) /\
  3 <= io_total o.
Proof.
  run_import (demo_import demo_tagged [] ∅).
  split; [vm_compute; reflexivity|].
  apply (Import_success_reached_end demo_tagged (demo_host []) 5
           (demo_handle demo_tagged) [] ∅);
    vm_compute; reflexivity.
Defined.

Lemma Import_success_tracks_complete_witness :
  exists o, demo_import demo_tagged [] ∅ = Some o /\
  Forall (fun g => Forall (fun t => 3 <= Z.of_nat (length (wt_samples t))) g) (io_outTracks o).
Proof.
  run_import (demo_import demo_tagged [] ∅).
  split; [vm_compute; reflexivity|].
  apply (Import_success_tracks_complete demo_tagged (demo_host []) 5
           (demo_handle demo_tagged) [] ∅);
    [vm_compute; reflexivity | vm_compute; reflexivity | simpl; lia
    | vm_compute; reflexivity | repeat constructor; simpl; lia | simpl; lia].
Defined.

Lemma tag_value_ascii_witness :
  tag_value demo_tagged 0%nat true "Title" = [65; 92; 66] /\
  tag_value demo_tagged 0%nat false "Title" = [65].
Proof.
  destruct (tag_value_ascii demo_tagged 0%nat "Title" ltac:(vm_compute; repeat constructor))
    as [Hape [_ [Hplain _]]].
  rewrite Hape, Hplain. split; vm_compute; reflexivity.
Defined.

Lemma copy_tags_keep_year_witness :
  fold_left (copy_tag demo_tagged (demo_host []) 0%nat true) [1%nat]
    {[ TAG_YEAR := wxT "1999" ]} !! TAG_YEAR = Some (wxT "1999").
Proof.
  apply (copy_tags_keep_year demo_tagged (demo_host []) 0%nat true [1%nat]).
  - vm_compute. reflexivity.
  - intros i [<-|[]]. vm_compute. discriminate.
Defined.

Lemma Import_tags_replace_store_witness :
  exists o1 o2, demo_import demo_tagged [] ∅ = Some o1 /\
  demo_import demo_tagged [] {[ wxT "X" := wxT "y" ]} = Some o2 /\ io_tags o1 = io_tags o2.
Proof.
  run_import (demo_import demo_tagged [] ∅).
  run_import (demo_import demo_tagged [] {[ wxT "X" := wxT "y" ]}).
  split; [vm_compute; reflexivity|]. split; [vm_compute; reflexivity|].
  apply (Import_tags_replace_store demo_tagged (demo_host []) 5 (demo_handle demo_tagged) []
           ∅ {[ wxT "X" := wxT "y" ]});
    [vm_compute; reflexivity | vm_compute; reflexivity | vm_compute; discriminate
    | vm_compute; discriminate | vm_compute; discriminate | vm_compute; reflexivity].
Defined.

Lemma append_chunk_lossless_witness :
  exists t0 t, replicate 2 (NewWaveTrack int16Sample 44100) !! 1%nat = Some t0 /\
    append_chunk 2 [10; 20; 11; 21; 12; 22] 3 (replicate 2 (NewWaveTrack int16Sample 44100))
      !! 1%nat = Some t /\
    wt_samples t !! 1%nat = Some 21.
Proof.
  destruct (append_chunk_lossless [10; 20; 11; 21; 12; 22] 2 3
              (replicate 2 (NewWaveTrack int16Sample 44100)) 3
              ltac:(unfold SAMPLES_TO_READ; lia) ltac:(lia) ltac:(unfold SAMPLES_TO_READ; simpl; lia) ltac:(reflexivity)
              ltac:(simpl; lia)) as (t0 & t & H1 & H2 & H3).
  exists t0, t. vm_compute in H1. injection H1 as <-.
  split; [reflexivity|]. split; [exact H2|exact H3].
Defined.
